(** * EtherCAT master interface: [ec_master.hpp]

    A shallow embedding of
    [ethercat_interface/include/ethercat_interface/ec_master.hpp]
    (classes [SDORequest] and [EcMaster]) together with the properties
    stated about it.

    Conventions.
    - Fixed-width unsigned integers ([uint8_t], [uint16_t], [uint32_t],
      [uint64_t], [size_t]) are [Z] values; where the code can leave the
      range the wrap-around is written out.
    - Pointers are values of [ptr]: [NULL] or the address of an object in
      the store that owns it.
    - [double] is Rocq's primitive binary64 [float].
    - A C++ operation whose behaviour is undefined (reading through a
      dangling handle, a [memcpy] past the end of a buffer, a
      floating-to-integer conversion out of range) returns [None].
    - [memcpy] into a [uint16_t] is decoded for a little-endian host. *)

From Stdlib Require Import ZArith NArith Lia Strings.String Strings.Byte.
From Stdlib Require Import Floats.PrimFloat Floats.SpecFloat Floats.FloatOps.
From Stdlib Require Import Uint63 QArith.
From stdpp Require Import base option list gmap.

Local Open Scope Z_scope.

(** ** Machine types *)

Inductive ptr : Set :=
| NULL
| Addr (a : nat).

Global Instance ptr_eq_dec : EqDecision ptr.
Proof. solve_decision. Defined.

Definition is_null (p : ptr) : bool :=
  match p with NULL => true | Addr _ => false end.

Definition UINT16_MAX : Z := 65535.
Definition UINT32_MAX : Z := 4294967295.
Definition UINT64_MAX : Z := 18446744073709551615.

(** [++x] on a [uint64_t]. *)
Definition uint64_incr (x : Z) : Z := (x + 1) mod (UINT64_MAX + 1).

Definition byte_val (b : byte) : Z := Z.of_N (Byte.to_N b).

(** [memcpy(dst, src, n)] where [src] is the start of a buffer holding
    the bytes [buf]: the [n] bytes copied, undefined when the buffer is
    shorter than [n]. *)
Definition memcpy (buf : list byte) (n : nat) : option (list byte) :=
  if decide (n ≤ length buf)%nat then Some (take n buf) else None.

(** The unsigned integer whose object representation is [bs] on a
    little-endian host. *)
Fixpoint le_value (bs : list byte) : Z :=
  match bs with
  | [] => 0
  | b :: bs' => byte_val b + 256 * le_value bs'
  end.

Definition sizeof_uint16_t : nat := 2.

(** ** The transaction layer ([ecrt.h]) *)

Module Ecrt.

Inductive ec_request_state_t : Set :=
| EC_REQUEST_UNUSED
| EC_REQUEST_BUSY
| EC_REQUEST_SUCCESS
| EC_REQUEST_ERROR.

Global Instance ec_request_state_eq_dec : EqDecision ec_request_state_t.
Proof. solve_decision. Defined.

Record ec_master_state_t : Set := {
  slaves_responding : Z;
  al_states : Z;
  link_up : bool
}.

Record ec_domain_state_t : Set := {
  working_counter : Z;
  wc_state : Z;
  redundancy_active : bool
}.

Record ec_slave_config_state_t : Set := {
  online : bool;
  operational : bool;
  al_state : Z
}.

Record ec_pdo_entry_reg_t : Set := {
  reg_alias : Z;
  reg_position : Z;
  reg_vendor_id : Z;
  reg_product_code : Z;
  reg_index : Z;
  reg_subindex : Z;
  reg_offset : ptr;
  reg_bit_position : ptr
}.

(** The value-initialised ([= {}]) snapshots. *)
Definition ec_master_state_zero : ec_master_state_t :=
  {| slaves_responding := 0; al_states := 0; link_up := false |}.
Definition ec_domain_state_zero : ec_domain_state_t :=
  {| working_counter := 0; wc_state := 0; redundancy_active := false |}.
Definition ec_slave_config_state_zero : ec_slave_config_state_t :=
  {| online := false; operational := false; al_state := 0 |}.

(** An SDO request object owned by the transaction layer.  [sdo_queued]
    is set while a read has been requested that the master has not yet
    picked up. *)
Record ec_sdo_request_t : Set := {
  sdo_config : ptr;
  sdo_index : Z;
  sdo_subindex : Z;
  sdo_state : ec_request_state_t;
  sdo_queued : bool;
  sdo_data : list byte
}.

Definition set_sdo_queued (b : bool) (r : ec_sdo_request_t) : ec_sdo_request_t :=
  {| sdo_config := sdo_config r; sdo_index := sdo_index r;
     sdo_subindex := sdo_subindex r; sdo_state := sdo_state r;
     sdo_queued := b; sdo_data := sdo_data r |}.

Definition set_sdo_state (s : ec_request_state_t) (r : ec_sdo_request_t)
    : ec_sdo_request_t :=
  {| sdo_config := sdo_config r; sdo_index := sdo_index r;
     sdo_subindex := sdo_subindex r; sdo_state := s;
     sdo_queued := sdo_queued r; sdo_data := sdo_data r |}.

Definition set_sdo_data (d : list byte) (r : ec_sdo_request_t) : ec_sdo_request_t :=
  {| sdo_config := sdo_config r; sdo_index := sdo_index r;
     sdo_subindex := sdo_subindex r; sdo_state := sdo_state r;
     sdo_queued := sdo_queued r; sdo_data := d |}.

(** Modelled from the spec: the transaction layer is an external
    black box (§6); of it the header uses the SDO request calls
    only.  The request objects it has created live in [sdo_heap], the
    object at [Addr k] being the [k]-th one created; [sdo_capacity]
    is the number of request objects it can still create.  A request
    is in one of the four states of §3: it is created Unused; a read
    request arms it, and it still reports its old state until the
    master picks it up on a bus cycle, from when it is Busy; the master
    then finishes the transfer with Success or Error (§4.4). *)
Record transport : Set := {
  sdo_heap : list ec_sdo_request_t;
  sdo_capacity : nat
}.

Definition lookup_request (p : ptr) (T : transport) : option ec_sdo_request_t :=
  match p with
  | NULL => None
  | Addr k => sdo_heap T !! k
  end.

Definition update_request (f : ec_sdo_request_t → ec_sdo_request_t)
    (p : ptr) (T : transport) : transport :=
  match p with
  | NULL => T
  | Addr k => {| sdo_heap := alter f k (sdo_heap T); sdo_capacity := sdo_capacity T |}
  end.

(** Modelled from the spec:
    [ecrt_slave_config_create_sdo_request(sc, index, subindex, size)]
    gives a new request, Unused, with [size] bytes of zeroed data memory,
    or [NULL] when the request object cannot be created (§7). *)
Definition ecrt_slave_config_create_sdo_request
    (sc : ptr) (index subindex size : Z) (T : transport) : ptr * transport :=
  match sdo_capacity T with
  | O => (NULL, T)
  | S c =>
      (Addr (length (sdo_heap T)),
       {| sdo_heap := sdo_heap T ++
            [ {| sdo_config := sc; sdo_index := index; sdo_subindex := subindex;
                 sdo_state := EC_REQUEST_UNUSED; sdo_queued := false;
                 sdo_data := replicate (Z.to_nat size) Byte.x00 |} ];
          sdo_capacity := c |})
  end.

(** Modelled from the spec: [ecrt_sdo_request_read(req)] arms the
    request: the read is queued for the master, which moves the request
    to Busy on the next bus cycle (§4.4); until then the state it
    reports is the one it had. *)
Definition ecrt_sdo_request_read (p : ptr) (T : transport) : option transport :=
  match lookup_request p T with
  | None => None
  | Some _ => Some (update_request (set_sdo_queued true) p T)
  end.

(** Modelled from the spec: [ecrt_sdo_request_state(req)] is the
    state of the request. *)
Definition ecrt_sdo_request_state (p : ptr) (T : transport)
    : option ec_request_state_t :=
  sdo_state <$> lookup_request p T.

(** Modelled from the spec: [ecrt_sdo_request_data(req)] points to
    the request's data memory; the result is the bytes found there. *)
Definition ecrt_sdo_request_data (p : ptr) (T : transport) : option (list byte) :=
  sdo_data <$> lookup_request p T.

(** Modelled from the spec: on a bus cycle the master picks up an armed
    request, which is Busy from then on (§4.4).  A request that is not
    armed is left alone. *)
Definition master_picks_up (p : ptr) (T : transport) : transport :=
  update_request
    (λ r, if sdo_queued r
          then set_sdo_queued false (set_sdo_state EC_REQUEST_BUSY r)
          else r) p T.

(** Modelled from the spec: the master finishes the transfer of a Busy
    request (the poll of §4.4 and §8.5): with [Some bytes] the upload
    succeeded and [bytes] is what the transport buffer holds, with
    [None] it failed.  A request that is not Busy is left alone. *)
Definition master_completes (p : ptr) (outcome : option (list byte))
    (T : transport) : transport :=
  update_request
    (λ r, match sdo_state r with
          | EC_REQUEST_BUSY =>
              match outcome with
              | Some bytes => set_sdo_data bytes (set_sdo_state EC_REQUEST_SUCCESS r)
              | None => set_sdo_state EC_REQUEST_ERROR r
              end
          | _ => r
          end) p T.

End Ecrt.
Import Ecrt.
(** ** [class SDORequest] *)

Inductive exception : Set :=
| runtime_error (what : string).

(** Modelled from the spec: [EcSlave::processSDO] is declared in
    [ec_slave.hpp], which is not at hand; it is the device's
    configuration-value handler (§4.4), and what is kept of a call
    [slave->processSDO(index, value)] is the device and the two
    arguments. *)
Record processSDO_call : Set := {
  sdo_slave : ptr;
  sdo_call_index : Z;
  sdo_call_value : Z
}.

Record SDORequest : Set := {
  slave_ : ptr;
  request_ : ptr;
  size_ : Z;
  index_ : Z;
  subindex_ : Z
}.

(** What a method of [SDORequest] runs against: the transaction layer,
    the addresses at which there is a device (an [EcSlave] object), and
    the calls made so far on devices. *)
Record world : Set := {
  bus : transport;
  devices : list nat;
  delivered : list processSDO_call
}.

(** The pointer points to a device. *)
Definition valid_slave (p : ptr) (w : world) : bool :=
  match p with
  | NULL => false
  | Addr a => bool_decide (a ∈ devices w)
  end.

(** [SDORequest(slave_config, index, subindex, size, slave)
      : request_(ecrt_slave_config_create_sdo_request(slave_config, index,
                                                      subindex, size)),
        size_(size), index_(index), subindex_(subindex), slave_(slave)
    { if (!request_) throw std::runtime_error("Failed to create SDO request"); }] *)
Definition SDORequest_new (slave_config : ptr) (index subindex size : Z)
    (slave : ptr) (T : transport) : exception + SDORequest * transport :=
  let '(request, T') :=
    ecrt_slave_config_create_sdo_request slave_config index subindex size T in
  if is_null request then inl (runtime_error "Failed to create SDO request")
  else inr ({| slave_ := slave; request_ := request; size_ := size;
               index_ := index; subindex_ := subindex |}, T').

(** A method returns its result together with the object and the world
    after the call; [None] is undefined behaviour. *)
Definition method (A : Type) : Type :=
  SDORequest → world → option (A * SDORequest * world).

(** [void initiateRead() { ecrt_sdo_request_read(request_); }] *)
Definition initiateRead : method unit := λ this w,
  T' ← ecrt_sdo_request_read (request_ this) (bus w);
  Some (tt, this, {| bus := T'; devices := devices w; delivered := delivered w |}).

(** [bool isComplete() const
      { return ecrt_sdo_request_state(request_) == EC_REQUEST_SUCCESS; }] *)
Definition isComplete : method bool := λ this w,
  st ← ecrt_sdo_request_state (request_ this) (bus w);
  Some (bool_decide (st = EC_REQUEST_SUCCESS), this, w).

(** [bool isUnsed() const
      { return ecrt_sdo_request_state(request_) == EC_REQUEST_UNUSED; }] *)
Definition isUnsed : method bool := λ this w,
  st ← ecrt_sdo_request_state (request_ this) (bus w);
  Some (bool_decide (st = EC_REQUEST_UNUSED), this, w).

(** [const void *getData() const { return ecrt_sdo_request_data(request_); }] *)
Definition getData : method (list byte) := λ this w,
  data ← ecrt_sdo_request_data (request_ this) (bus w);
  Some (data, this, w).

(** [void processData() {
       const void* data = ecrt_sdo_request_data(request_);
       uint16_t value;
       memcpy(&value, data, sizeof(uint16_t));
       slave_->processSDO(index_, value); }]
    The call through [slave_] is undefined when [slave_] is null or
    points to no device. *)
Definition processData : method unit := λ this w,
  data ← ecrt_sdo_request_data (request_ this) (bus w);
  bytes ← memcpy data sizeof_uint16_t;
  let value := le_value bytes in
  if valid_slave (slave_ this) w then
    Some (tt, this,
          {| bus := bus w; devices := devices w;
             delivered := delivered w ++
               [ {| sdo_slave := slave_ this; sdo_call_index := index_ this;
                    sdo_call_value := value |} ] |})
  else None.

(** [uint16_t getIndex() const { return index_; }] and
    [uint8_t getSubindex() const { return subindex_; }] *)
Definition getIndex : method Z := λ this w, Some (index_ this, this, w).
Definition getSubindex : method Z := λ this w, Some (subindex_ this, this, w).

(** Sequences of method calls on one object. *)
Inductive call : Set :=
| CallInitiateRead
| CallIsComplete
| CallIsUnsed
| CallGetData
| CallProcessData
| CallGetIndex
| CallGetSubindex.

Global Instance call_eq_dec : EqDecision call.
Proof. solve_decision. Defined.

Definition discard {A : Type} (m : method A) : method unit := λ this w,
  '(_, this', w') ← m this w; Some (tt, this', w').

Definition invoke (c : call) : method unit :=
  match c with
  | CallInitiateRead => initiateRead
  | CallIsComplete => discard isComplete
  | CallIsUnsed => discard isUnsed
  | CallGetData => discard getData
  | CallProcessData => processData
  | CallGetIndex => discard getIndex
  | CallGetSubindex => discard getSubindex
  end.

Fixpoint invoke_all (cs : list call) : method unit := λ this w,
  match cs with
  | [] => Some (tt, this, w)
  | c :: cs' => '(_, this', w') ← invoke c this w; invoke_all cs' this' w'
  end.

(** What can happen to the transaction layer while a request object is
    alive: other request objects are constructed, methods are called on
    request objects, and the master picks up armed requests and finishes
    transfers. *)
Inductive action : Set :=
| ActNew (slave_config : ptr) (index subindex size : Z) (slave : ptr)
| ActCall (r : SDORequest) (c : call)
| ActMasterPicksUp (p : ptr)
| ActMasterCompletes (p : ptr) (outcome : option (list byte)).

Definition act (a : action) (w : world) : option world :=
  match a with
  | ActNew sc index subindex size slave =>
      match SDORequest_new sc index subindex size slave (bus w) with
      | inl _ => Some w
      | inr (_, T') =>
          Some {| bus := T'; devices := devices w; delivered := delivered w |}
      end
  | ActCall r c => '(_, _, w') ← invoke c r w; Some w'
  | ActMasterPicksUp p =>
      Some {| bus := master_picks_up p (bus w); devices := devices w;
              delivered := delivered w |}
  | ActMasterCompletes p outcome =>
      Some {| bus := master_completes p outcome (bus w); devices := devices w;
              delivered := delivered w |}
  end.

Fixpoint act_all (acts : list action) (w : world) : option world :=
  match acts with
  | [] => Some w
  | a :: acts' => w' ← act a w; act_all acts' w'
  end.

(** The action is a call of [initiateRead()] on the request behind [p]. *)
Definition arms (p : ptr) (a : action) : bool :=
  match a with
  | ActCall r CallInitiateRead => bool_decide (request_ r = p)
  | _ => false
  end.

(** [initiateRead()] is never called on the request behind [p]. *)
Definition never_armed (p : ptr) (acts : list action) : bool :=
  forallb (λ a, negb (arms p a)) acts.

(** ** [class EcMaster] *)

(** [struct DomainInfo::Entry]: a slave's pdo entries in the domain. *)
Record Entry : Set := {
  entry_slave : ptr;
  num_pdos : Z;
  offset : ptr;
  bit_position : ptr
}.

(** [struct DomainInfo]: data for a single domain. *)
Record DomainInfo : Set := {
  domain : ptr;
  domain_state : ec_domain_state_t;
  domain_pd : ptr;
  domain_regs : list ec_pdo_entry_reg_t;
  entries : list Entry
}.

(** [struct SlaveInfo]: data needed to check slave state. *)
Record SlaveInfo : Set := {
  slave : ptr;
  config : ptr;
  config_state : ec_slave_config_state_t
}.

(** The data members of [EcMaster], in the order of the header.  Time
    points are ticks of the system clock. *)
Record EcMaster : Type := {
  running_ : bool;
  start_t_ : Z;
  curr_t_ : Z;
  sdo_requests_ : list SDORequest;
  master_ : ptr;
  master_state_ : ec_master_state_t;
  domain_info_ : gmap Z DomainInfo;
  slave_info_ : list SlaveInfo;
  update_counter_ : Z;
  check_state_frequency_ : Z;
  interval_ : Z
}.

Definition set_running_ (b : bool) (m : EcMaster) : EcMaster :=
  {| running_ := b; start_t_ := start_t_ m; curr_t_ := curr_t_ m;
     sdo_requests_ := sdo_requests_ m; master_ := master_ m;
     master_state_ := master_state_ m; domain_info_ := domain_info_ m;
     slave_info_ := slave_info_ m; update_counter_ := update_counter_ m;
     check_state_frequency_ := check_state_frequency_ m;
     interval_ := interval_ m |}.

Definition set_start_t_ (t : Z) (m : EcMaster) : EcMaster :=
  {| running_ := running_ m; start_t_ := t; curr_t_ := curr_t_ m;
     sdo_requests_ := sdo_requests_ m; master_ := master_ m;
     master_state_ := master_state_ m; domain_info_ := domain_info_ m;
     slave_info_ := slave_info_ m; update_counter_ := update_counter_ m;
     check_state_frequency_ := check_state_frequency_ m;
     interval_ := interval_ m |}.

Definition set_curr_t_ (t : Z) (m : EcMaster) : EcMaster :=
  {| running_ := running_ m; start_t_ := start_t_ m; curr_t_ := t;
     sdo_requests_ := sdo_requests_ m; master_ := master_ m;
     master_state_ := master_state_ m; domain_info_ := domain_info_ m;
     slave_info_ := slave_info_ m; update_counter_ := update_counter_ m;
     check_state_frequency_ := check_state_frequency_ m;
     interval_ := interval_ m |}.

Definition set_master_state_ (s : ec_master_state_t) (m : EcMaster) : EcMaster :=
  {| running_ := running_ m; start_t_ := start_t_ m; curr_t_ := curr_t_ m;
     sdo_requests_ := sdo_requests_ m; master_ := master_ m;
     master_state_ := s; domain_info_ := domain_info_ m;
     slave_info_ := slave_info_ m; update_counter_ := update_counter_ m;
     check_state_frequency_ := check_state_frequency_ m;
     interval_ := interval_ m |}.

Definition set_domain_info_ (d : gmap Z DomainInfo) (m : EcMaster) : EcMaster :=
  {| running_ := running_ m; start_t_ := start_t_ m; curr_t_ := curr_t_ m;
     sdo_requests_ := sdo_requests_ m; master_ := master_ m;
     master_state_ := master_state_ m; domain_info_ := d;
     slave_info_ := slave_info_ m; update_counter_ := update_counter_ m;
     check_state_frequency_ := check_state_frequency_ m;
     interval_ := interval_ m |}.

Definition set_slave_info_ (s : list SlaveInfo) (m : EcMaster) : EcMaster :=
  {| running_ := running_ m; start_t_ := start_t_ m; curr_t_ := curr_t_ m;
     sdo_requests_ := sdo_requests_ m; master_ := master_ m;
     master_state_ := master_state_ m; domain_info_ := domain_info_ m;
     slave_info_ := s; update_counter_ := update_counter_ m;
     check_state_frequency_ := check_state_frequency_ m;
     interval_ := interval_ m |}.

Definition set_update_counter_ (c : Z) (m : EcMaster) : EcMaster :=
  {| running_ := running_ m; start_t_ := start_t_ m; curr_t_ := curr_t_ m;
     sdo_requests_ := sdo_requests_ m; master_ := master_ m;
     master_state_ := master_state_ m; domain_info_ := domain_info_ m;
     slave_info_ := slave_info_ m; update_counter_ := c;
     check_state_frequency_ := check_state_frequency_ m;
     interval_ := interval_ m |}.

Definition set_interval_ (i : Z) (m : EcMaster) : EcMaster :=
  {| running_ := running_ m; start_t_ := start_t_ m; curr_t_ := curr_t_ m;
     sdo_requests_ := sdo_requests_ m; master_ := master_ m;
     master_state_ := master_state_ m; domain_info_ := domain_info_ m;
     slave_info_ := slave_info_ m; update_counter_ := update_counter_ m;
     check_state_frequency_ := check_state_frequency_ m;
     interval_ := i |}.

(** Modelled from the spec: the body of the constructor [EcMaster()] is
    not in the header.  The engine it leaves carries the default member
    initialisers of the header ([running_ = false], [master_ = NULL],
    [master_state_ = {}], [update_counter_ = 0],
    [check_state_frequency_ = 10]), empty containers and
    default-constructed time points; [interval_] has no initialiser and
    holds an indeterminate value. *)
Definition EcMaster_new (indeterminate : Z) : EcMaster :=
  {| running_ := false; start_t_ := 0; curr_t_ := 0;
     sdo_requests_ := []; master_ := NULL;
     master_state_ := ec_master_state_zero; domain_info_ := ∅;
     slave_info_ := []; update_counter_ := 0;
     check_state_frequency_ := 10;
     interval_ := indeterminate |}.

(** [virtual void stop() {running_ = false;}] *)
Definition stop (m : EcMaster) : EcMaster := set_running_ false m.

(** Conversion of a [double] to an integer type truncates toward zero;
    [None] for infinities and NaN. *)
Definition SF_trunc (x : spec_float) : option Z :=
  match x with
  | S754_zero _ => Some 0
  | S754_finite s m e =>
      let magnitude :=
        if 0 <=? e then Z.pos m * 2 ^ e else Z.pos m / 2 ^ (- e) in
      Some (if s then - magnitude else magnitude)
  | S754_infinity _ | S754_nan => None
  end.

(** Implicit conversion [double] to [uint32_t]: undefined when the
    truncated value is not a [uint32_t]. *)
Definition double_to_uint32 (x : float) : option Z :=
  n ← SF_trunc (Prim2SF x);
  if decide (0 ≤ n ≤ UINT32_MAX) then Some n else None.

(** [void setCtrlFrequency(double frequency)
      { interval_ = 1000000000.0 / frequency; }] *)
Definition setCtrlFrequency (frequency : float) (m : EcMaster) : option EcMaster :=
  i ← double_to_uint32 (1000000000.0 / frequency)%float;
  Some (set_interval_ i m).

(** [uint32_t getInterval() {return interval_;}] *)
Definition getInterval (m : EcMaster) : Z := interval_ m.

(** Modelled from the spec: the body of [elapsedCycles()] is not in the
    header, which documents it as the number of EtherCAT updates since
    calling run; a read-only observer of the cycle counter (§4.2). *)
Definition elapsedCycles (m : EcMaster) : Z := update_counter_ m.

(** Modelled from the spec: the body of [elapsedTime()] is not in the
    header, which documents it as the time of the last EtherCAT update
    since calling run; a read-only observer (§4.2), here in clock ticks
    rather than seconds. *)
Definition elapsedTime (m : EcMaster) : Z := curr_t_ m - start_t_ m.

(** ** The cyclic engine (§4.2, §4.3) *)

Global Instance ec_master_state_eq_dec : EqDecision ec_master_state_t.
Proof. solve_decision. Defined.
Global Instance ec_domain_state_eq_dec : EqDecision ec_domain_state_t.
Proof. solve_decision. Defined.
Global Instance ec_slave_config_state_eq_dec : EqDecision ec_slave_config_state_t.
Proof. solve_decision. Defined.

(** What one cycle takes from outside the engine: the clock, the
    snapshots the bus reports, and whether [stop()] is invoked during a
    loop iteration (by the user callback or from another context). *)
Record observation : Type := {
  now : Z;
  stop_requested : bool;
  seen_master : ec_master_state_t;
  seen_domain : Z → ec_domain_state_t;
  seen_slave : nat → ec_slave_config_state_t
}.

Inductive monitored : Set :=
| MasterState
| DomainState (d : Z)
| SlaveState (k : nat).

Global Instance monitored_eq_dec : EqDecision monitored.
Proof. solve_decision. Defined.

(** What a cycle does to the outside, in order. *)
Inductive cycle_event : Set :=
| EvReceive
| EvCheckMasterState
| EvCheckDomainState (d : Z)
| EvCheckSlaveStates
| EvWarning (what : monitored)
| EvDecode (device : ptr)
| EvCallback
| EvEncode (device : ptr)
| EvQueue (d : Z)
| EvSleep.

Global Instance cycle_event_eq_dec : EqDecision cycle_event.
Proof. solve_decision. Defined.

Definition set_domain_state (s : ec_domain_state_t) (di : DomainInfo) : DomainInfo :=
  {| domain := domain di; domain_state := s; domain_pd := domain_pd di;
     domain_regs := domain_regs di; entries := entries di |}.

Definition set_config_state (s : ec_slave_config_state_t) (si : SlaveInfo) : SlaveInfo :=
  {| slave := slave si; config := config si; config_state := s |}.

(** Modelled from the spec: the bodies of [checkMasterState()],
    [checkDomainState(domain)] and [checkSlaveStates()] are not in the
    header.  Each compares a freshly queried snapshot with the cached
    one, reports a change, and caches the new snapshot; none stops the
    engine (§4.3).  [checkDomainState] is for the one domain given. *)
Definition checkMasterState (obs : observation) (m : EcMaster)
    : EcMaster * list cycle_event :=
  (set_master_state_ (seen_master obs) m,
   EvCheckMasterState ::
     if decide (seen_master obs = master_state_ m) then []
     else [EvWarning MasterState]).

Definition checkDomainState (d : Z) (obs : observation) (m : EcMaster)
    : EcMaster * list cycle_event :=
  (set_domain_info_
     (alter (set_domain_state (seen_domain obs d)) d (domain_info_ m)) m,
   EvCheckDomainState d ::
     match domain_info_ m !! d with
     | Some di =>
         if decide (seen_domain obs d = domain_state di) then []
         else [EvWarning (DomainState d)]
     | None => []
     end).

Definition checkSlaveStates (obs : observation) (m : EcMaster)
    : EcMaster * list cycle_event :=
  (set_slave_info_
     (imap (λ k si, set_config_state (seen_slave obs k) si) (slave_info_ m)) m,
   EvCheckSlaveStates ::
     omap id
       (imap (λ k si, if decide (seen_slave obs k = config_state si) then None
                      else Some (EvWarning (SlaveState k)))
             (slave_info_ m))).

(** The devices with entries in the domain. *)
Definition domain_devices (d : Z) (m : EcMaster) : list ptr :=
  from_option (λ di, entry_slave <$> entries di) [] (domain_info_ m !! d).

(** Modelled from the spec: the body of [readData(domain)] is not in
    the header and the spec does not name it; by its name the first
    half of a cycle, steps 1 to 3 of the per-cycle algorithm of §4.2:
    receive and process the domain, check the states, let the devices
    decode.  The domain state is checked for the domain at hand; the
    master and slave states are checked when the cycle counter is a
    multiple of [check_state_frequency_], which the header documents as
    the frequency to check for master or slave state change, state
    checked every that many control loops. *)
Definition readData (d : Z) (obs : observation) (m : EcMaster)
    : EcMaster * list cycle_event :=
  let '(m1, ev1) := checkDomainState d obs m in
  let '(m2, ev2) :=
    if update_counter_ m mod check_state_frequency_ m =? 0
    then
      let '(ma, eva) := checkMasterState obs m1 in
      let '(mb, evb) := checkSlaveStates obs ma in
      (mb, eva ++ evb)
    else (m1, []) in
  (m2, [EvReceive] ++ ev1 ++ ev2 ++ (EvDecode <$> domain_devices d m)).

(** Modelled from the spec: the body of [writeData(domain)] is not in
    the header and the spec does not name it; by its name the second
    half of a cycle, steps 5 to 7 of §4.2: let the devices encode, queue
    the process image, advance the cycle counter. *)
Definition writeData (d : Z) (m : EcMaster) : EcMaster * list cycle_event :=
  (set_update_counter_ (uint64_incr (update_counter_ m)) m,
   (EvEncode <$> domain_devices d m) ++ [EvQueue d]).

(** Modelled from the spec: the body of [update(domain)] is not in the
    header, which documents it as performing one EtherCAT cycle,
    passing the domain to the slaves: the two halves one after the
    other. *)
Definition update (d : Z) (obs : observation) (m : EcMaster)
    : EcMaster * list cycle_event :=
  let '(m1, ev1) := readData d obs m in
  let '(m2, ev2) := writeData d m1 in
  (m2, ev1 ++ ev2).

(** Modelled from the spec: one iteration of the loop of [run()], the
    per-cycle algorithm of §4.2 on the default domain 0, its eight
    steps in order: the user callback, which may call [stop()], sits
    between the decoding and the encoding; the time of the update is
    recorded when the counter has been advanced. *)
Definition cycle (obs : observation) (m : EcMaster) : EcMaster * list cycle_event :=
  (* 1. to 3. receive, state checks, decode *)
  let '(m3, ev3) := readData 0 obs m in
  (* 4. the user callback *)
  let m4 := if stop_requested obs then stop m3 else m3 in
  (* 5. to 7. encode, queue, advance the counter and record the time *)
  let '(m6, ev6) := writeData 0 m4 in
  let m7 := set_curr_t_ (now obs) m6 in
  (* 8. wait for the next interval boundary *)
  (m7, ev3 ++ [EvCallback] ++ ev6 ++ [EvSleep]).

(** One completed cycle as seen from outside: the value of the cycle
    counter when it began and what it did. *)
Record iteration : Set := {
  cycle_number : Z;
  cycle_events : list cycle_event
}.

(** Modelled from the spec: the loop of [run()]; the flag is observed
    at the top of each iteration (§5).  The argument lists what the
    iterations observe; the loop is followed for as many iterations as
    it has entries. *)
Fixpoint run_loop (obss : list observation) (m : EcMaster)
    : EcMaster * list iteration :=
  match obss with
  | [] => (m, [])
  | obs :: obss' =>
      if running_ m then
        let '(m', evs) := cycle obs m in
        let '(m'', its) := run_loop obss' m' in
        (m'', {| cycle_number := update_counter_ m; cycle_events := evs |} :: its)
      else (m, [])
  end.

(** Modelled from the spec: [run(callback)] entered at time [start]; it
    sets the flag, records the start time and loops (§4.2). *)
Definition run (start : Z) (obss : list observation) (m : EcMaster)
    : EcMaster * list iteration :=
  run_loop obss (set_start_t_ start (set_running_ true m)).

(** ** The operations of the engine *)

(** What the configuration functions leave in the members that hold
    the configuration. *)
Record configuration : Type := {
  cfg_sdo_requests : list SDORequest;
  cfg_master : ptr;
  cfg_master_state : ec_master_state_t;
  cfg_domain_info : gmap Z DomainInfo;
  cfg_slave_info : list SlaveInfo
}.

(** Modelled from the spec: the bodies of [connect()], [addSlave()],
    [configSlaveSdo()] and [activate()] are not in the header.  They
    open the bus connection, enter the slaves and their channels in the
    domain tables, write configuration objects and bind the process
    images, all before the loop runs (§4.1, §4.2, §4.5).  What they
    leave in the master handle and state, the domain tables, the slave
    records and the pending requests is not modelled: it is given from
    outside.  They take no part in the cycle: the running flag, the time
    points, the cycle counter, the check interval and the period are
    not theirs to change. *)
Definition configure (c : configuration) (m : EcMaster) : EcMaster :=
  {| running_ := running_ m; start_t_ := start_t_ m; curr_t_ := curr_t_ m;
     sdo_requests_ := cfg_sdo_requests c; master_ := cfg_master c;
     master_state_ := cfg_master_state c; domain_info_ := cfg_domain_info c;
     slave_info_ := cfg_slave_info c; update_counter_ := update_counter_ m;
     check_state_frequency_ := check_state_frequency_ m;
     interval_ := interval_ m |}.

(** The public member functions of [EcMaster].  The three static ones
    have no engine to work on. *)
Inductive operation : Type :=
| OpAddSlave (alias position : Z) (device : ptr) (after : configuration)
| OpConfigSlaveSdo (slave_position : Z) (after : configuration)
| OpConnect (master_id : Z) (after : configuration)
| OpActivate (after : configuration)
| OpUpdate (d : Z) (obs : observation)
| OpRun (start : Z) (obss : list observation)
| OpStop
| OpElapsedTime
| OpElapsedCycles
| OpSetCtrlCHandler
| OpSetThreadHighPriority
| OpSetThreadRealTime
| OpSetCtrlFrequency (frequency : float)
| OpGetInterval
| OpReadData (d : Z) (obs : observation)
| OpWriteData (d : Z).

Definition is_run (op : operation) : bool :=
  match op with OpRun _ _ => true | _ => false end.

(** The operations that perform cycles. *)
Definition performs_cycles (op : operation) : bool :=
  match op with
  | OpRun _ _ | OpUpdate _ _ | OpWriteData _ => true
  | _ => false
  end.

(** The engine after an operation and the cycles completed by it;
    [None] when the operation has undefined behaviour. *)
Definition apply_op (op : operation) (m : EcMaster)
    : option (EcMaster * list iteration) :=
  match op with
  | OpAddSlave _ _ _ after | OpConfigSlaveSdo _ after
  | OpConnect _ after | OpActivate after => Some (configure after m, [])
  | OpUpdate d obs =>
      let '(m', evs) := update d obs m in
      Some (m', [ {| cycle_number := update_counter_ m; cycle_events := evs |} ])
  | OpRun start obss => Some (run start obss m)
  | OpStop => Some (stop m, [])
  | OpElapsedTime | OpElapsedCycles | OpGetInterval
  | OpSetCtrlCHandler | OpSetThreadHighPriority | OpSetThreadRealTime =>
      Some (m, [])
  | OpSetCtrlFrequency frequency =>
      m' ← setCtrlFrequency frequency m; Some (m', [])
  | OpReadData d obs => Some (fst (readData d obs m), [])
  | OpWriteData d =>
      let '(m', evs) := writeData d m in
      Some (m', [ {| cycle_number := update_counter_ m; cycle_events := evs |} ])
  end.

Fixpoint apply_ops (ops : list operation) (m : EcMaster)
    : option (EcMaster * list iteration) :=
  match ops with
  | [] => Some (m, [])
  | op :: ops' =>
      '(m', its) ← apply_op op m;
      '(m'', its') ← apply_ops ops' m';
      Some (m'', its ++ its')
  end.

(** ** Auxiliary notions for the statements *)

(** A [uint32_t] converted to [double] (exact: below 2^53). *)
Definition uint32_to_double (n : Z) : float := PrimFloat.of_uint63 (Uint63.of_Z n).

(** The exact rational value of a finite binary64 number. *)
Definition SF_value (x : spec_float) : option Q :=
  match x with
  | S754_zero _ => Some (0 # 1)%Q
  | S754_finite s m e =>
      let n := if s then Z.neg m else Z.pos m in
      Some (if 0 <=? e then inject_Z (n * 2 ^ e) else (n # Z.to_pos (2 ^ (- e)))%Q)
  | S754_infinity _ | S754_nan => None
  end.

(** The request at [Addr k] exists, is Unused and is not armed. *)
Definition unused_at (k : nat) (T : transport) : Prop :=
  ∃ r, sdo_heap T !! k = Some r
       ∧ sdo_state r = EC_REQUEST_UNUSED ∧ sdo_queued r = false.

(** The range of the [uint64_t] cycle counter. *)
Definition counter_in_range (m : EcMaster) : Prop :=
  0 ≤ update_counter_ m ≤ UINT64_MAX.

(** An observation in which nothing changes and nobody calls [stop()]. *)
Definition quiet (t : Z) : observation :=
  {| now := t; stop_requested := false;
     seen_master := ec_master_state_zero;
     seen_domain := λ _, ec_domain_state_zero;
     seen_slave := λ _, ec_slave_config_state_zero |}.

(** The State Monitor pass of §4.3: the master, domain and slave state
    checks, all three, are among the events of a cycle on domain [d]. *)
Definition monitor_pass (d : Z) (evs : list cycle_event) : Prop :=
  EvCheckMasterState ∈ evs ∧ EvCheckDomainState d ∈ evs ∧ EvCheckSlaveStates ∈ evs.

(** ** A simulated bus with two mailbox requests *)

(** A transaction layer that can still create two request objects, and
    one that cannot create any. *)
Definition bus_empty : transport := {| sdo_heap := []; sdo_capacity := 2 |}.
Definition bus_exhausted : transport := {| sdo_heap := []; sdo_capacity := 0 |}.

(** The objects that constructing a request for object 0x6041:00 (two
    bytes) on device [Addr 7] and then one for 0x1018:01 (four bytes) on
    device [Addr 8] gives on [bus_empty]. *)
Definition req_statusword : SDORequest :=
  {| slave_ := Addr 7; request_ := Addr 0; size_ := 2;
     index_ := 24641; subindex_ := 0 |}.
Definition req_vendor : SDORequest :=
  {| slave_ := Addr 8; request_ := Addr 1; size_ := 4;
     index_ := 4120; subindex_ := 1 |}.

(** The bus after the first construction. *)
Definition bus_one : transport :=
  snd (ecrt_slave_config_create_sdo_request (Addr 3) 24641 0 2 bus_empty).

(** The second request is constructed, armed, picked up, completed and
    processed while the first is only queried. *)
Definition script_other_request : list action :=
  [ ActNew (Addr 4) 4120 1 4 (Addr 8);
    ActCall req_statusword CallIsUnsed;
    ActCall req_vendor CallInitiateRead;
    ActMasterPicksUp (Addr 1);
    ActMasterPicksUp (Addr 0);
    ActMasterCompletes (Addr 1) (Some [Byte.x2c; Byte.x01; Byte.x00; Byte.x00]);
    ActMasterCompletes (Addr 0) (Some [Byte.xff; Byte.xff]);
    ActCall req_vendor CallProcessData;
    ActCall req_statusword CallGetData ].

(** There are devices at the addresses 7 and 8. *)
Definition world_one : world :=
  {| bus := bus_one; devices := [7; 8]%nat; delivered := [] |}.

Definition world_after_script : world :=
  default world_one (act_all script_other_request world_one).

(** The first request armed, not yet picked up by the master. *)
Definition world_queued : world :=
  default world_one (act_all [ActCall req_statusword CallInitiateRead] world_one).

(** The first request armed and picked up: Busy. *)
Definition world_armed : world :=
  default world_one
    (act_all [ ActCall req_statusword CallInitiateRead; ActMasterPicksUp (Addr 0) ]
             world_one).

(** The first request armed, picked up and its upload finished with the
    bytes 0x2C 0x01. *)
Definition world_uploaded : world :=
  default world_one
    (act_all [ ActCall req_statusword CallInitiateRead;
               ActMasterPicksUp (Addr 0);
               ActMasterCompletes (Addr 0) (Some [Byte.x2c; Byte.x01]) ]
             world_one).

(** A request for the one-byte object 0x6060:00 on device [Addr 7],
    constructed with size 1 on [bus_empty]; the world just after the
    construction, and the world after the request has been armed and
    its upload has finished with the one byte 0x2C. *)
Definition req_mode : SDORequest :=
  {| slave_ := Addr 7; request_ := Addr 0; size_ := 1;
     index_ := 24672; subindex_ := 0 |}.

Definition world_mode_fresh : world :=
  {| bus := snd (ecrt_slave_config_create_sdo_request (Addr 3) 24672 0 1 bus_empty);
     devices := [7]%nat; delivered := [] |}.

Definition world_mode_uploaded : world :=
  default world_mode_fresh
    (act_all [ ActCall req_mode CallInitiateRead;
               ActMasterPicksUp (Addr 0);
               ActMasterCompletes (Addr 0) (Some [Byte.x2c]) ]
             world_mode_fresh).

(** The request for 0x6041:00 constructed with a null device pointer. *)
Definition req_orphan : SDORequest :=
  {| slave_ := NULL; request_ := Addr 0; size_ := 2;
     index_ := 24641; subindex_ := 0 |}.

(** ** A small configured engine *)

(** Two slaves, the devices at [Addr 7] and [Addr 8], with one entry
    each in domain 0. *)
Definition two_slaves : configuration :=
  {| cfg_sdo_requests := [];
     cfg_master := Addr 1;
     cfg_master_state := ec_master_state_zero;
     cfg_domain_info :=
       {[ 0 := {| domain := Addr 2; domain_state := ec_domain_state_zero;
                  domain_pd := Addr 100; domain_regs := [];
                  entries := [ {| entry_slave := Addr 7; num_pdos := 1;
                                  offset := Addr 10; bit_position := Addr 11 |};
                               {| entry_slave := Addr 8; num_pdos := 1;
                                  offset := Addr 12; bit_position := Addr 13 |} ] |} ]};
     cfg_slave_info :=
       [ {| slave := Addr 7; config := Addr 20;
            config_state := ec_slave_config_state_zero |};
         {| slave := Addr 8; config := Addr 21;
            config_state := ec_slave_config_state_zero |} ] |}.

Definition engine_two_slaves : EcMaster := configure two_slaves (EcMaster_new 0).

(** ** Notions for the properties of the member functions *)

(** The [const] member functions of [SDORequest]. *)
Definition is_query (c : call) : bool :=
  match c with
  | CallIsComplete | CallIsUnsed | CallGetData | CallGetIndex | CallGetSubindex =>
      true
  | CallInitiateRead | CallProcessData => false
  end.

Definition is_initiateRead (c : call) : bool :=
  match c with CallInitiateRead => true | _ => false end.

(** The handle names a request object of the transaction layer. *)
Definition live (p : ptr) (T : transport) : Prop := is_Some (lookup_request p T).

(** The call [processData()] makes on the device when the transport
    buffer holds [data]. *)
Definition processSDO_of (this : SDORequest) (data : list byte) : processSDO_call :=
  {| sdo_slave := slave_ this; sdo_call_index := index_ this;
     sdo_call_value := le_value (take sizeof_uint16_t data) |}.

(** * Properties *)

(** ** The transaction layer *)

Section Transport.

Implicit Types (T : transport) (p : ptr) (k : nat).

Lemma unused_at_state k T :
  unused_at k T → ecrt_sdo_request_state (Addr k) T = Some EC_REQUEST_UNUSED.
Proof.
  intros (r & Hk & Hs & _). unfold ecrt_sdo_request_state; simpl.
  rewrite Hk; simpl. by rewrite Hs.
Qed.

Lemma create_returns sc index subindex size T p T' :
  ecrt_slave_config_create_sdo_request sc index subindex size T = (p, T') →
  (p = NULL ∧ T' = T ∧ sdo_capacity T = O) ∨
  (p = Addr (length (sdo_heap T)) ∧ sdo_capacity T ≠ O ∧ unused_at (length (sdo_heap T)) T' ∧
   ∀ k r, sdo_heap T !! k = Some r → sdo_heap T' !! k = Some r).
Proof.
  unfold ecrt_slave_config_create_sdo_request.
  destruct (sdo_capacity T) as [|c] eqn:Hc; intros [= <- <-].
  - left; done.
  - right. split; [done|]. split; [done|]. split.
    + eexists. simpl. split.
      * rewrite lookup_app_r by lia. by rewrite Nat.sub_diag.
      * split; reflexivity.
    + intros k r Hk. simpl. rewrite lookup_app_l; [done|].
      by eapply lookup_lt_Some.
Qed.

Lemma update_request_lookup f q p T :
  lookup_request p (update_request f q T)
    = if decide (q = p) then f <$> lookup_request p T else lookup_request p T.
Proof.
  destruct q as [|k], p as [|j]; unfold update_request, lookup_request;
    cbn [sdo_heap].
  - by destruct (decide (NULL = NULL)).
  - by destruct (decide (NULL = Addr j)).
  - by destruct (decide (Addr k = NULL)).
  - rewrite list_lookup_alter.
    destruct (decide (Addr k = Addr j)) as [Heq|Hne'], (decide (k = j)) as [Hkj|Hne];
      congruence.
Qed.

(** An update that leaves unarmed Unused requests alone, or is made
    elsewhere, keeps the request at [Addr k] unarmed and Unused. *)
Lemma update_request_unused f p k T :
  (p ≠ Addr k
   ∨ ∀ r, sdo_state r = EC_REQUEST_UNUSED → sdo_queued r = false → f r = r) →
  unused_at k T → unused_at k (update_request f p T).
Proof.
  intros Hf (r & Hk & Hs & Hq). unfold unused_at.
  pose proof (update_request_lookup f p (Addr k) T) as Hl. simpl in Hl.
  rewrite Hl, Hk. destruct (decide (p = Addr k)) as [->|Hne].
  - destruct Hf as [?|Hf]; [done|]. exists r. simpl. by rewrite Hf.
  - by exists r.
Qed.

Lemma read_other_preserves k p T T' :
  p ≠ Addr k → ecrt_sdo_request_read p T = Some T' →
  unused_at k T → unused_at k T'.
Proof.
  intros Hne Hread Hu. unfold ecrt_sdo_request_read in Hread.
  destruct (lookup_request p T); [|done]. injection Hread as <-.
  apply update_request_unused; auto.
Qed.

Lemma master_picks_up_preserves k p T :
  unused_at k T → unused_at k (master_picks_up p T).
Proof.
  apply update_request_unused. right. intros r _ Hq. by rewrite Hq.
Qed.

Lemma master_completes_preserves k p outcome T :
  unused_at k T → unused_at k (master_completes p outcome T).
Proof.
  apply update_request_unused. right. intros r Hs _. by rewrite Hs.
Qed.

End Transport.

(** ** [SDORequest] *)

Section Requests.

Implicit Types (this r : SDORequest) (w : world) (T : transport).

Lemma byte_val_range (b : byte) : 0 ≤ byte_val b ≤ 255.
Proof.
  unfold byte_val. pose proof (Byte.to_N_bounded b) as Hb.
  split; [apply N2Z.is_nonneg|]. change 255 with (Z.of_N 255). lia.
Qed.

Lemma le_value_two (b0 b1 : byte) :
  le_value [b0; b1] = byte_val b0 + 256 * byte_val b1.
Proof. simpl. lia. Qed.

Lemma SDORequest_new_inr sc index subindex size slave T r T' :
  SDORequest_new sc index subindex size slave T = inr (r, T') →
  r = {| slave_ := slave; request_ := Addr (length (sdo_heap T)); size_ := size;
         index_ := index; subindex_ := subindex |}
  ∧ unused_at (length (sdo_heap T)) T'
  ∧ ∀ k x, sdo_heap T !! k = Some x → sdo_heap T' !! k = Some x.
Proof.
  unfold SDORequest_new.
  destruct (ecrt_slave_config_create_sdo_request sc index subindex size T)
    as [p T1] eqn:Hc.
  apply create_returns in Hc as [(-> & -> & _)|(-> & _ & Hu & Hk)]; simpl.
  - done.
  - intros [= <- <-]. done.
Qed.

Lemma invoke_bus_unchanged c this w u this' w' :
  c ≠ CallInitiateRead → invoke c this w = Some (u, this', w') → bus w' = bus w.
Proof.
  intros Hc. destruct c; try done; simpl;
    unfold discard, isComplete, isUnsed, getData, processData, getIndex, getSubindex;
    intros H; simplify_option_eq; try done;
    destruct (valid_slave _ _); by simplify_eq.
Qed.

Lemma invoke_this_unchanged c this w u this' w' :
  invoke c this w = Some (u, this', w') → this' = this.
Proof.
  destruct c; simpl;
    unfold discard, initiateRead, isComplete, isUnsed, getData, processData,
      getIndex, getSubindex;
    intros H; simplify_option_eq; try done;
    destruct (valid_slave _ _); by simplify_eq.
Qed.

Lemma invoke_all_this_unchanged cs this w u this' w' :
  invoke_all cs this w = Some (u, this', w') → this' = this.
Proof.
  revert this w. induction cs as [|c cs IH]; intros this w; simpl.
  - by intros [= _ <- _].
  - destruct (invoke c this w) as [[[u1 this1] w1]|] eqn:Hc; [|done]. simpl.
    intros H. apply IH in H as ->. by eapply invoke_this_unchanged.
Qed.

Lemma act_preserves_unused k a w w' :
  arms (Addr k) a = false → act a w = Some w' →
  unused_at k (bus w) → unused_at k (bus w').
Proof.
  intros Harm Hact Hu.
  destruct a as [sc index subindex size slave|r c|p|p outcome]; simpl in Hact.
  - destruct (SDORequest_new sc index subindex size slave (bus w))
      as [ex|[r T']] eqn:Hnew.
    + by injection Hact as <-.
    + injection Hact as <-. simpl.
      apply SDORequest_new_inr in Hnew as (_ & _ & Hk).
      destruct Hu as (x & Hx & Hs). exists x. split; [by apply Hk|done].
  - destruct (invoke c r w) as [[[u r'] w1]|] eqn:Hc; [|done].
    simpl in Hact. injection Hact as ->.
    destruct (decide (c = CallInitiateRead)) as [->|Hne].
    + simpl in Harm, Hc. apply bool_decide_eq_false in Harm.
      unfold initiateRead in Hc.
      destruct (ecrt_sdo_request_read (request_ r) (bus w)) as [T1|] eqn:Hr; [|done].
      simpl in Hc. injection Hc as _ _ <-. simpl.
      by eapply read_other_preserves.
    + erewrite invoke_bus_unchanged; eauto.
  - injection Hact as <-. simpl. by apply master_picks_up_preserves.
  - injection Hact as <-. simpl. by apply master_completes_preserves.
Qed.

Lemma act_all_preserves_unused k acts w w' :
  never_armed (Addr k) acts = true → act_all acts w = Some w' →
  unused_at k (bus w) → unused_at k (bus w').
Proof.
  revert w. induction acts as [|a acts IH]; intros w; simpl.
  - by intros _ [= <-].
  - intros [Ha Hacts]%andb_prop Hact Hu.
    destruct (act a w) as [w1|] eqn:H1; [|done]. simpl in Hact.
    apply (IH w1); [done|done|].
    eapply act_preserves_unused; eauto. by apply negb_true_iff.
Qed.

End Requests.

(** C1. A mailbox request that has never been armed with
    [initiateRead()] reports unused: [isUnsed()] compares the state of
    the underlying request with [EC_REQUEST_UNUSED] (first part), so
    that for a request just constructed, whatever else happens on the
    bus (other requests constructed, armed, completed and processed,
    queries on this one, the master finishing transfers), as long as
    [initiateRead()] is not called on it, [isUnsed()] returns true and
    [isComplete()] returns false (second part). *)
Theorem never_armed_request_is_unused :
  (∀ this w b this' w',
     isUnsed this w = Some (b, this', w') →
     (b = true ↔
      ecrt_sdo_request_state (request_ this) (bus w) = Some EC_REQUEST_UNUSED))
  ∧
  (∀ sc index subindex size slave T r T' devs calls acts w',
     SDORequest_new sc index subindex size slave T = inr (r, T') →
     never_armed (request_ r) acts = true →
     act_all acts {| bus := T'; devices := devs; delivered := calls |} = Some w' →
     isUnsed r w' = Some (true, r, w') ∧ isComplete r w' = Some (false, r, w')).
Proof.
  split.
  - intros this w b this' w'. unfold isUnsed.
    destruct (ecrt_sdo_request_state (request_ this) (bus w)) as [st|]; [|done].
    simpl. intros [= <- _ _]. rewrite bool_decide_eq_true. split; congruence.
  - intros sc index subindex size slave T r T' devs calls acts w' Hnew Hnever Hacts.
    apply SDORequest_new_inr in Hnew as (-> & Hu & _). simpl in *.
    eapply act_all_preserves_unused in Hacts; [|done|done].
    apply unused_at_state in Hacts. unfold isUnsed, isComplete. simpl.
    rewrite Hacts. done.
Qed.

Lemma never_armed_request_is_unused_witness :
  isUnsed req_statusword world_after_script
    = Some (true, req_statusword, world_after_script)
  ∧ isComplete req_statusword world_after_script
    = Some (false, req_statusword, world_after_script).
Proof.
  apply (proj2 never_armed_request_is_unused
           (Addr 3) 24641 0 2 (Addr 7) bus_empty req_statusword bus_one
           [7; 8]%nat [] script_other_request world_after_script);
    vm_compute; reflexivity.
Defined.

(** ** [processData()] *)

Lemma processData_step this w data :
  ecrt_sdo_request_data (request_ this) (bus w) = Some data →
  (2 ≤ length data)%nat →
  valid_slave (slave_ this) w = true →
  processData this w =
    Some (tt, this, {| bus := bus w; devices := devices w;
                       delivered := delivered w ++ [processSDO_of this data] |}).
Proof.
  intros Hdata Hlen Hv. unfold processData, memcpy, sizeof_uint16_t.
  rewrite Hdata. simpl. rewrite decide_True by done. simpl. by rewrite Hv.
Qed.

(** A request that is armed, picked up by the master and completed with
    an upload is in state Success and holds the uploaded bytes. *)
Lemma arm_pick_up_complete p T r bytes :
  lookup_request p T = Some r →
  lookup_request p
    (master_completes p (Some bytes)
       (master_picks_up p (update_request (set_sdo_queued true) p T)))
  = Some (set_sdo_data bytes
            (set_sdo_state EC_REQUEST_SUCCESS
               (set_sdo_queued false
                  (set_sdo_state EC_REQUEST_BUSY (set_sdo_queued true r))))).
Proof.
  intros Hr. unfold master_completes, master_picks_up.
  rewrite !update_request_lookup, !decide_True, Hr by done. reflexivity.
Qed.

(** C2, as stated, fails for a request in state Success whose upload was
    a single byte: the request for the one-byte object 0x6060:00,
    constructed with size 1, armed and completed with the byte 0x2C, is
    complete, and [processData()] copies two bytes from a buffer of
    one, which is undefined.  It fails as well for a request constructed
    with a null device pointer, on which [slave_->processSDO] is
    undefined although the two bytes are there. *)
Lemma processData_on_success_undefined :
  SDORequest_new (Addr 3) 24672 0 1 (Addr 7) bus_empty
    = inr (req_mode, bus world_mode_fresh)
  ∧ isComplete req_mode world_mode_uploaded
      = Some (true, req_mode, world_mode_uploaded)
  ∧ getData req_mode world_mode_uploaded
      = Some ([Byte.x2c], req_mode, world_mode_uploaded)
  ∧ processData req_mode world_mode_uploaded = None
  ∧ SDORequest_new (Addr 3) 24641 0 2 NULL bus_empty = inr (req_orphan, bus_one)
  ∧ isComplete req_orphan world_uploaded
      = Some (true, req_orphan, world_uploaded)
  ∧ getData req_orphan world_uploaded
      = Some ([Byte.x2c; Byte.x01], req_orphan, world_uploaded)
  ∧ processData req_orphan world_uploaded = None.
Proof. vm_compute. repeat split; reflexivity. Qed.

(** C2, amended.  When the request is in state Success, the transport
    buffer holds at least two bytes and [slave_] points to a device,
    [processData()] copies a two-byte unsigned integer out of the
    transport buffer and hands it to that device with
    [slave->processSDO(index, value)], keyed by the request's object
    index; the value is the little-endian reading of the first two
    bytes, so the bytes 0x2C 0x01 give 300. *)
Theorem processData_delivers_uint16 this w b0 b1 rest :
  ecrt_sdo_request_state (request_ this) (bus w) = Some EC_REQUEST_SUCCESS →
  ecrt_sdo_request_data (request_ this) (bus w) = Some (b0 :: b1 :: rest) →
  valid_slave (slave_ this) w = true →
  processData this w =
    Some (tt, this,
          {| bus := bus w; devices := devices w;
             delivered := delivered w ++
               [ {| sdo_slave := slave_ this; sdo_call_index := index_ this;
                    sdo_call_value := byte_val b0 + 256 * byte_val b1 |} ] |})
  ∧ 0 ≤ byte_val b0 + 256 * byte_val b1 ≤ UINT16_MAX
  ∧ (b0 = Byte.x2c → b1 = Byte.x01 → byte_val b0 + 256 * byte_val b1 = 300).
Proof.
  intros _ Hdata Hv. split; [|split].
  - rewrite (processData_step this w _ Hdata) by (simpl; (lia || done)).
    unfold processSDO_of. simpl. by rewrite Z.mul_0_r, Z.add_0_r.
  - pose proof (byte_val_range b0). pose proof (byte_val_range b1).
    unfold UINT16_MAX. lia.
  - by intros -> ->.
Qed.

Lemma processData_delivers_uint16_witness :
  isComplete req_statusword world_uploaded
    = Some (true, req_statusword, world_uploaded)
  ∧ processData req_statusword world_uploaded =
      Some (tt, req_statusword,
            {| bus := bus world_uploaded; devices := devices world_uploaded;
               delivered := [ {| sdo_slave := Addr 7; sdo_call_index := 24641;
                                 sdo_call_value := 300 |} ] |}).
Proof.
  split; [reflexivity|].
  exact (proj1 (processData_delivers_uint16 req_statusword world_uploaded
                  Byte.x2c Byte.x01 [] eq_refl eq_refl eq_refl)).
Defined.


(** C8. The constructor of [SDORequest] throws
    [runtime_error("Failed to create SDO request")] when the transaction
    layer returns a null request handle, and no object results; when a
    request handle is returned, construction completes and the object
    stores that handle, which is not null and names a live request. *)
Theorem SDORequest_ctor_throws_iff_null sc index subindex size slave T p T' :
  ecrt_slave_config_create_sdo_request sc index subindex size T = (p, T') →
  (p = NULL →
   SDORequest_new sc index subindex size slave T
     = inl (runtime_error "Failed to create SDO request"))
  ∧ (p ≠ NULL →
     ∃ r, SDORequest_new sc index subindex size slave T = inr (r, T')
          ∧ request_ r = p ∧ request_ r ≠ NULL
          ∧ is_Some (lookup_request (request_ r) T')).
Proof.
  intros Hc. unfold SDORequest_new. rewrite Hc.
  apply create_returns in Hc as [(-> & -> & _)|(-> & _ & (x & Hx & _) & _)].
  - split; [done|]. by intros [].
  - split; [done|]. intros _. simpl. eexists. split; [reflexivity|]. simpl.
    split; [done|]. split; [done|]. by exists x.
Qed.

Lemma SDORequest_ctor_throws_iff_null_witness :
  SDORequest_new (Addr 3) 24641 0 2 (Addr 7) bus_exhausted
    = inl (runtime_error "Failed to create SDO request")
  ∧ ∃ r, SDORequest_new (Addr 3) 24641 0 2 (Addr 7) bus_empty = inr (r, bus_one)
         ∧ request_ r = Addr 0 ∧ request_ r ≠ NULL
         ∧ is_Some (lookup_request (request_ r) bus_one).
Proof.
  split.
  - apply (proj1 (SDORequest_ctor_throws_iff_null (Addr 3) 24641 0 2 (Addr 7)
                    bus_exhausted NULL bus_exhausted eq_refl)).
    reflexivity.
  - apply (proj2 (SDORequest_ctor_throws_iff_null (Addr 3) 24641 0 2 (Addr 7)
                    bus_empty (Addr 0) bus_one eq_refl)).
    discriminate.
Defined.




(** ** The cyclic engine *)

Section Engine.

Implicit Types (m : EcMaster) (obs : observation) (d : Z).

Lemma uint64_incr_range x : 0 ≤ uint64_incr x ≤ UINT64_MAX.
Proof.
  unfold uint64_incr, UINT64_MAX.
  pose proof (Z.mod_pos_bound (x + 1) (18446744073709551615 + 1)). lia.
Qed.

Lemma readData_frame d obs m :
  update_counter_ (fst (readData d obs m)) = update_counter_ m
  ∧ running_ (fst (readData d obs m)) = running_ m
  ∧ check_state_frequency_ (fst (readData d obs m)) = check_state_frequency_ m.
Proof.
  unfold readData.
  destruct (update_counter_ m mod check_state_frequency_ m =? 0); done.
Qed.

Lemma writeData_frame d m :
  update_counter_ (fst (writeData d m)) = uint64_incr (update_counter_ m)
  ∧ running_ (fst (writeData d m)) = running_ m
  ∧ check_state_frequency_ (fst (writeData d m)) = check_state_frequency_ m.
Proof. done. Qed.

Lemma update_frame d obs m :
  update_counter_ (fst (update d obs m)) = uint64_incr (update_counter_ m)
  ∧ running_ (fst (update d obs m)) = running_ m.
Proof.
  unfold update. destruct (readData_frame d obs m) as (Hc & Hr & _).
  destruct (readData d obs m) as [m1 ev1]. simpl in *. by rewrite Hc, Hr.
Qed.

Lemma cycle_frame obs m :
  update_counter_ (fst (cycle obs m)) = uint64_incr (update_counter_ m)
  ∧ running_ (fst (cycle obs m)) = running_ m && negb (stop_requested obs)
  ∧ check_state_frequency_ (fst (cycle obs m)) = check_state_frequency_ m.
Proof.
  unfold cycle. destruct (readData_frame 0 obs m) as (Hc & Hr & Hf).
  destruct (readData 0 obs m) as [m1 ev1]. simpl in *.
  destruct (stop_requested obs); simpl;
    rewrite ?Hc, ?Hr, ?Hf, ?andb_true_r, ?andb_false_r; done.
Qed.

Lemma checkDomainState_events d obs m ev :
  ev ∈ snd (checkDomainState d obs m) →
  ev = EvCheckDomainState d ∨ ev = EvWarning (DomainState d).
Proof.
  unfold checkDomainState. cbn [snd].
  destruct (domain_info_ m !! d) as [di|];
    [destruct (decide (seen_domain obs d = domain_state di))|];
    intros Hin;
    repeat (apply elem_of_cons in Hin as [->|Hin]; [(by left) || (by right)|]);
    by apply elem_of_nil in Hin.
Qed.

(** The events of the first half of a cycle: the domain check always,
    the master and slave checks exactly when the counter is a multiple
    of the check interval. *)
Lemma readData_checks d obs m :
  EvCheckDomainState d ∈ snd (readData d obs m)
  ∧ (EvCheckMasterState ∈ snd (readData d obs m)
     ↔ update_counter_ m mod check_state_frequency_ m = 0)
  ∧ (EvCheckSlaveStates ∈ snd (readData d obs m)
     ↔ update_counter_ m mod check_state_frequency_ m = 0).
Proof.
  unfold readData.
  pose proof (checkDomainState_events d obs m) as Hev.
  assert (EvCheckDomainState d ∈ snd (checkDomainState d obs m)) as Hd
    by (unfold checkDomainState; cbn [snd]; apply list_elem_of_here).
  destruct (checkDomainState d obs m) as [m1 ev1]. cbn [snd] in Hev, Hd.
  destruct (Z.eqb_spec (update_counter_ m mod check_state_frequency_ m) 0)
    as [H0|H0].
  - unfold checkMasterState, checkSlaveStates. cbn [fst snd].
    split; [|split; (split; [done|intros _])];
      rewrite !elem_of_app, ?elem_of_cons; auto 10.
  - cbn [fst snd]. split; [rewrite !elem_of_app; auto|].
    split; (split; [|done]); intros Hin; exfalso;
      rewrite !elem_of_app, list_elem_of_fmap in Hin;
      destruct Hin as [Hin|[Hin|[Hin|Hin]]].
    all: try (by apply list_elem_of_singleton in Hin).
    all: try (by apply elem_of_nil in Hin).
    all: try (by destruct Hin as (? & ? & _)).
    all: by destruct (Hev _ Hin).
Qed.

Lemma cycle_checks obs m :
  EvCheckDomainState 0 ∈ snd (cycle obs m)
  ∧ (EvCheckMasterState ∈ snd (cycle obs m)
     ↔ update_counter_ m mod check_state_frequency_ m = 0)
  ∧ (EvCheckSlaveStates ∈ snd (cycle obs m)
     ↔ update_counter_ m mod check_state_frequency_ m = 0).
Proof.
  unfold cycle. destruct (readData_checks 0 obs m) as (Hd & Hm & Hs).
  destruct (readData 0 obs m) as [m1 ev1]. cbn [fst snd writeData] in *.
  split; [apply elem_of_app; by left|].
  split; [rewrite <- Hm|rewrite <- Hs];
    (split; [|intros Hin; apply elem_of_app; by left]); intros Hin;
    rewrite !elem_of_app, !list_elem_of_fmap, !list_elem_of_singleton in Hin;
    destruct Hin as [Hin|[Hin|[[Hin|Hin]|Hin]]]; try done;
    by destruct Hin as (? & ? & _).
Qed.

Lemma run_loop_cons obs obss m :
  running_ m = true →
  run_loop (obs :: obss) m =
    (fst (run_loop obss (fst (cycle obs m))),
     {| cycle_number := update_counter_ m; cycle_events := snd (cycle obs m) |}
       :: snd (run_loop obss (fst (cycle obs m)))).
Proof.
  intros Hr. simpl. rewrite Hr. destruct (cycle obs m) as [m1 evs]. simpl.
  by destruct (run_loop obss m1).
Qed.

Lemma run_loop_stopped obss m :
  running_ m = false → run_loop obss m = (m, []).
Proof. intros Hr. destruct obss; simpl; [done|]. by rewrite Hr. Qed.

Lemma run_loop_counter obss m :
  counter_in_range m →
  update_counter_ (fst (run_loop obss m))
    = (update_counter_ m + Z.of_nat (length (snd (run_loop obss m))))
        mod (UINT64_MAX + 1)
  ∧ ∀ i it, snd (run_loop obss m) !! i = Some it →
            cycle_number it = (update_counter_ m + Z.of_nat i) mod (UINT64_MAX + 1).
Proof.
  revert m. induction obss as [|obs obss IH]; intros m Hm.
  - simpl. split; [|done]. rewrite Z.add_0_r, Z.mod_small; [done|].
    unfold counter_in_range in Hm. lia.
  - destruct (running_ m) eqn:Hr.
    + rewrite run_loop_cons by done. simpl.
      destruct (cycle_frame obs m) as (Hc & _ & _).
      destruct (IH (fst (cycle obs m))) as [IH1 IH2].
      { unfold counter_in_range. rewrite Hc. apply uint64_incr_range. }
      rewrite Hc in IH1, IH2. unfold uint64_incr in IH1, IH2. split.
      * rewrite IH1, Z.add_mod_idemp_l by (unfold UINT64_MAX; lia).
        f_equal. lia.
      * intros [|i] it; simpl.
        -- intros [= <-]. simpl. rewrite Z.add_0_r, Z.mod_small; [done|].
           unfold counter_in_range in Hm. lia.
        -- intros Hi. rewrite (IH2 _ _ Hi).
           rewrite Z.add_mod_idemp_l by (unfold UINT64_MAX; lia). f_equal. lia.
    + rewrite run_loop_stopped by done. simpl. split; [|done].
      rewrite Z.add_0_r, Z.mod_small; [done|].
      unfold counter_in_range in Hm. lia.
Qed.

Lemma run_loop_checks obss m it :
  it ∈ snd (run_loop obss m) →
  EvCheckDomainState 0 ∈ cycle_events it
  ∧ (EvCheckMasterState ∈ cycle_events it
     ↔ cycle_number it mod check_state_frequency_ m = 0)
  ∧ (EvCheckSlaveStates ∈ cycle_events it
     ↔ cycle_number it mod check_state_frequency_ m = 0).
Proof.
  revert m. induction obss as [|obs obss IH]; intros m.
  - simpl. by intros ?%elem_of_nil.
  - destruct (running_ m) eqn:Hr.
    + rewrite run_loop_cons by done. simpl.
      intros [->|Hin]%elem_of_cons.
      * simpl. apply cycle_checks.
      * apply IH in Hin. destruct (cycle_frame obs m) as (_ & _ & Hf).
        by rewrite Hf in Hin.
    + rewrite run_loop_stopped by done. simpl. by intros ?%elem_of_nil.
Qed.

End Engine.

Section Operations.

Implicit Types (m : EcMaster) (op : operation).

Lemma apply_op_no_cycles op m m' its :
  performs_cycles op = false → apply_op op m = Some (m', its) →
  its = [] ∧ update_counter_ m' = update_counter_ m
  ∧ (running_ m = false → running_ m' = false).
Proof.
  destruct op; simpl; try done; intros _;
    try (by intros [= <- <-]).
  - unfold setCtrlFrequency.
    destruct (double_to_uint32 _); simpl; [|done]. by intros [= <- <-].
  - intros [= <- <-]. by destruct (readData_frame d obs m) as (-> & -> & _).
Qed.

Lemma apply_op_counter op m m' its :
  counter_in_range m → apply_op op m = Some (m', its) →
  update_counter_ m'
    = (update_counter_ m + Z.of_nat (length its)) mod (UINT64_MAX + 1)
  ∧ counter_in_range m'.
Proof.
  intros Hr Hop.
  assert (update_counter_ m'
            = (update_counter_ m + Z.of_nat (length its)) mod (UINT64_MAX + 1))
    as Hc.
  { destruct (performs_cycles op) eqn:Hcyc.
    - destruct op; try done; simpl in Hop.
      + destruct (update_frame d obs m) as [Hu _].
        destruct (update d obs m) as [m1 evs]. injection Hop as <- <-. done.
      + unfold run in Hop.
        set (m0 := set_start_t_ start (set_running_ true m)) in *.
        assert (counter_in_range m0) as H0 by done.
        pose proof (run_loop_counter obss m0 H0) as [Hc _].
        destruct (run_loop obss m0) as [m1 its1]. by injection Hop as <- <-.
      + injection Hop as <- <-. done.
    - destruct (apply_op_no_cycles _ _ _ _ Hcyc Hop) as (-> & -> & _). simpl.
      rewrite Z.add_0_r, Z.mod_small; [done|].
      unfold counter_in_range, UINT64_MAX in *. lia. }
  split; [done|]. unfold counter_in_range. rewrite Hc.
  pose proof (Z.mod_pos_bound
    (update_counter_ m + Z.of_nat (length its)) (UINT64_MAX + 1)).
  unfold UINT64_MAX in *. lia.
Qed.

Lemma apply_ops_counter ops m m' its :
  counter_in_range m → apply_ops ops m = Some (m', its) →
  update_counter_ m'
    = (update_counter_ m + Z.of_nat (length its)) mod (UINT64_MAX + 1).
Proof.
  revert m its. induction ops as [|op ops IH]; intros m its Hr; simpl.
  - intros [= <- <-]. simpl. rewrite Z.add_0_r, Z.mod_small; [done|].
    unfold counter_in_range, UINT64_MAX in *. lia.
  - destruct (apply_op op m) as [[m1 its1]|] eqn:H1; [|done]. simpl.
    destruct (apply_ops ops m1) as [[m2 its2]|] eqn:H2; [|done]. simpl.
    intros [= <- <-].
    destruct (apply_op_counter _ _ _ _ Hr H1) as [Hc1 Hr1].
    rewrite (IH _ _ Hr1 H2), Hc1, length_app, Nat2Z.inj_add.
    rewrite Z.add_mod_idemp_l by (unfold UINT64_MAX; lia). f_equal. lia.
Qed.

Lemma apply_op_running op m m' its :
  is_run op = false → apply_op op m = Some (m', its) →
  running_ m = false → running_ m' = false.
Proof.
  intros Hrun Hop. destruct (performs_cycles op) eqn:Hcyc.
  - destruct op; try done; simpl in Hop.
    + destruct (update_frame d obs m) as [_ Hu].
      destruct (update d obs m) as [m1 evs]. injection Hop as <- _.
      simpl in Hu. congruence.
    + by injection Hop as <- _.
  - by destruct (apply_op_no_cycles _ _ _ _ Hcyc Hop) as (_ & _ & ?).
Qed.

Lemma apply_ops_running ops m m' its :
  forallb (λ op, negb (is_run op)) ops = true →
  apply_ops ops m = Some (m', its) →
  running_ m = false → running_ m' = false.
Proof.
  revert m its. induction ops as [|op ops IH]; intros m its; simpl.
  - by intros _ [= <- <-].
  - intros [Hop Hops]%andb_prop. apply negb_true_iff in Hop.
    destruct (apply_op op m) as [[m1 its1]|] eqn:H1; [|done]. simpl.
    destruct (apply_ops ops m1) as [[m2 its2]|] eqn:H2; [|done]. simpl.
    intros [= <- <-] Hr. eapply IH; [done|done|].
    by eapply apply_op_running.
Qed.

Lemma apply_ops_no_cycles ops m m' its :
  forallb (λ op, negb (performs_cycles op)) ops = true →
  apply_ops ops m = Some (m', its) → its = [].
Proof.
  revert m its. induction ops as [|op ops IH]; intros m its; simpl.
  - by intros _ [= <- <-].
  - intros [Hop Hops]%andb_prop. apply negb_true_iff in Hop.
    destruct (apply_op op m) as [[m1 its1]|] eqn:H1; [|done]. simpl.
    destruct (apply_ops ops m1) as [[m2 its2]|] eqn:H2; [|done]. simpl.
    intros [= <- <-].
    destruct (apply_op_no_cycles _ _ _ _ Hop H1) as (-> & _ & _).
    by rewrite (IH _ _ Hops H2).
Qed.

End Operations.

(** C6. [stop()] clears the running flag and changes nothing else: the
    time points, the pending SDO requests, the master handle and state,
    the domain tables, the slave records, the cycle counter, the check
    interval and the period are what they were.  [elapsedTime()] and
    [elapsedCycles()] therefore keep their values, and the loop, which
    looks at the flag at the top of each iteration, starts no further
    cycle that could update them. *)
Theorem stop_only_clears_running (m : EcMaster) :
  running_ (stop m) = false
  ∧ start_t_ (stop m) = start_t_ m
  ∧ curr_t_ (stop m) = curr_t_ m
  ∧ sdo_requests_ (stop m) = sdo_requests_ m
  ∧ master_ (stop m) = master_ m
  ∧ master_state_ (stop m) = master_state_ m
  ∧ domain_info_ (stop m) = domain_info_ m
  ∧ slave_info_ (stop m) = slave_info_ m
  ∧ update_counter_ (stop m) = update_counter_ m
  ∧ check_state_frequency_ (stop m) = check_state_frequency_ m
  ∧ interval_ (stop m) = interval_ m
  ∧ elapsedTime (stop m) = elapsedTime m
  ∧ elapsedCycles (stop m) = elapsedCycles m
  ∧ ∀ obss, run_loop obss (stop m) = (stop m, []).
Proof.
  repeat (split; [reflexivity|]). intros obss. by apply run_loop_stopped.
Qed.




(** ** The cycle counter *)

(** C5.  The cycle counter is zero in a fresh engine.  Each completed
    loop iteration of [run()] adds exactly one: a run leaves the counter
    higher by the number of iterations it completed, and its
    iterations start with consecutive counter values.  Over any
    sequence of operations of the engine the counter moves up by the
    number of cycles completed and by nothing else, so it never
    decreases and never returns to zero; an operation that performs no
    cycle leaves it as it is.  [stop()] leaves it as it is, and on a
    cleared flag the loop runs no further iteration.  All this as long
    as the count stays within [uint64_t], that is for fewer than 2^64
    cycles. *)
Theorem cycle_counter_counts_iterations :
  (∀ i, elapsedCycles (EcMaster_new i) = 0)
  ∧ (∀ start obss m,
       counter_in_range m →
       elapsedCycles m + Z.of_nat (length (snd (run start obss m))) ≤ UINT64_MAX →
       elapsedCycles (fst (run start obss m))
         = elapsedCycles m + Z.of_nat (length (snd (run start obss m)))
       ∧ ∀ i it, snd (run start obss m) !! i = Some it →
                 cycle_number it = elapsedCycles m + Z.of_nat i)
  ∧ (∀ ops m m' its,
       counter_in_range m →
       apply_ops ops m = Some (m', its) →
       elapsedCycles m + Z.of_nat (length its) ≤ UINT64_MAX →
       elapsedCycles m' = elapsedCycles m + Z.of_nat (length its)
       ∧ elapsedCycles m ≤ elapsedCycles m'
       ∧ (0 < elapsedCycles m → 0 < elapsedCycles m'))
  ∧ (∀ op m m' its,
       performs_cycles op = false →
       apply_op op m = Some (m', its) →
       elapsedCycles m' = elapsedCycles m)
  ∧ (∀ m obss,
       elapsedCycles (stop m) = elapsedCycles m
       ∧ run_loop obss (stop m) = (stop m, [])).
Proof.
  split; [done|]. split; [|split; [|split]].
  - intros start obss m Hr Hle. unfold run, elapsedCycles in *.
    set (m0 := set_start_t_ start (set_running_ true m)) in *.
    assert (counter_in_range m0) as H0 by done.
    destruct (run_loop_counter obss m0 H0) as [Hc Hi].
    change (update_counter_ m0) with (update_counter_ m) in Hc, Hi.
    unfold counter_in_range in Hr. split.
    + rewrite Hc. apply Z.mod_small. lia.
    + intros i it Hit. rewrite (Hi _ _ Hit). apply Z.mod_small.
      apply lookup_lt_Some in Hit. lia.
  - intros ops m m' its Hr Hops Hle. unfold elapsedCycles in *.
    rewrite (apply_ops_counter _ _ _ _ Hr Hops), Z.mod_small
      by (unfold counter_in_range in Hr; lia).
    lia.
  - intros op m m' its Hcyc Hop.
    by destruct (apply_op_no_cycles _ _ _ _ Hcyc Hop) as (_ & ? & _).
  - intros m obss. split; [done|]. by apply run_loop_stopped.
Qed.

Lemma cycle_counter_counts_iterations_witness :
  elapsedCycles (stop (fst (run 5 [quiet 6; quiet 7; quiet 8]
                              (fst (update 0 (quiet 1) engine_two_slaves)))))
    = 0 + Z.of_nat 4
  ∧ 0 ≤ elapsedCycles
          (stop (fst (run 5 [quiet 6; quiet 7; quiet 8]
                        (fst (update 0 (quiet 1) engine_two_slaves)))))
  ∧ (0 < 0 →
     0 < elapsedCycles
           (stop (fst (run 5 [quiet 6; quiet 7; quiet 8]
                         (fst (update 0 (quiet 1) engine_two_slaves)))))).
Proof.
  apply (proj1 (proj2 (proj2 cycle_counter_counts_iterations))
           [ OpActivate two_slaves; OpUpdate 0 (quiet 1);
             OpRun 5 [quiet 6; quiet 7; quiet 8]; OpStop ]
           (EcMaster_new 0)
           (stop (fst (run 5 [quiet 6; quiet 7; quiet 8]
                         (fst (update 0 (quiet 1) engine_two_slaves)))))
           ({| cycle_number := 0;
               cycle_events := snd (update 0 (quiet 1) engine_two_slaves) |}
              :: snd (run 5 [quiet 6; quiet 7; quiet 8]
                        (fst (update 0 (quiet 1) engine_two_slaves))))).
  - unfold counter_in_range, UINT64_MAX. vm_compute. split; discriminate.
  - vm_compute. reflexivity.
  - vm_compute. discriminate.
Defined.

(** ** The State Monitor pass *)



Example state_checks_first_twelve_cycles :
  (λ it, (cycle_number it,
          bool_decide (EvCheckMasterState ∈ cycle_events it),
          bool_decide (EvCheckDomainState 0 ∈ cycle_events it),
          bool_decide (EvCheckSlaveStates ∈ cycle_events it)))
    <$> snd (run 0 (replicate 12 (quiet 1)) engine_two_slaves)
  = [ (0, true, true, true); (1, false, true, false); (2, false, true, false);
      (3, false, true, false); (4, false, true, false); (5, false, true, false);
      (6, false, true, false); (7, false, true, false); (8, false, true, false);
      (9, false, true, false); (10, true, true, true); (11, false, true, false) ].
Proof. vm_compute. reflexivity. Qed.

(** ** The cycle period *)

(** Truncation of a non-negative finite [double]: the largest integer
    not above its value. *)
Lemma SF_trunc_floor (x : spec_float) (q : Q) :
  SF_value x = Some q → (0 <= q)%Q →
  ∃ n, SF_trunc x = Some n ∧ 0 ≤ n
       ∧ (inject_Z n <= q)%Q ∧ (q < inject_Z (n + 1))%Q.
Proof.
  destruct x as [s|s| |s mant e]; simpl; try done.
  - intros [= <-] _. exists 0. repeat split; try done.
  - intros [= <-] Hq.
    destruct (Z.leb_spec 0 e) as [He|He].
    + assert (0 < 2 ^ e) as Hpow by (by apply Z.pow_pos_nonneg).
      unfold Qle, Qlt, inject_Z in *; simpl in *.
      destruct s.
      * exfalso. nia.
      * eexists. split; [reflexivity|]. nia.
    + assert (0 < 2 ^ (- e)) as HD by (apply Z.pow_pos_nonneg; lia).
      unfold Qle, Qlt, inject_Z in *; simpl in *.
      rewrite Z2Pos.id in * by done.
      destruct s.
      * exfalso. lia.
      * eexists. split; [reflexivity|].
        pose proof (Z.mul_div_le (Z.pos mant) _ HD).
        pose proof (Z.mul_succ_div_gt (Z.pos mant) _ HD).
        pose proof (Z.div_pos (Z.pos mant) (2 ^ (- e))).
        nia.
Qed.

(** C4, as stated, fails at 3 Hz: the period stored is 333333333 ns,
    which is not 1e9 / 3, neither as a [double] nor exactly.  At
    0.125 Hz the quotient 8e9 is no [uint32_t] and the conversion is
    undefined. *)
Lemma setCtrlFrequency_three_hertz_inexact :
  (0 <? 3)%float = true
  ∧ getInterval <$> setCtrlFrequency 3 (EcMaster_new 0) = Some 333333333
  ∧ (uint32_to_double 333333333 =? 1000000000.0 / 3)%float = false
  ∧ 333333333 * 3 ≠ 1000000000
  ∧ (0 <? 0.125)%float = true
  ∧ setCtrlFrequency 0.125 (EcMaster_new 0) = None.
Proof. vm_compute. repeat split; try reflexivity. discriminate. Qed.

(** C4, amended.  Let [q] be the exact value of the [double] quotient
    [1000000000.0 / frequency].  When [0 <= q < 2^32],
    [setCtrlFrequency(frequency)] changes [interval_] only, and the
    period [getInterval()] then returns is [q] truncated to a whole
    number of nanoseconds: a [uint32_t] with [period <= q < period + 1],
    equal to [q] when [q] is whole. *)
Theorem setCtrlFrequency_truncates (frequency : float) (m : EcMaster) (q : Q) :
  SF_value (Prim2SF (1000000000.0 / frequency)) = Some q →
  (0 <= q)%Q → (q < inject_Z (UINT32_MAX + 1))%Q →
  ∃ m', setCtrlFrequency frequency m = Some m'
        ∧ m' = set_interval_ (getInterval m') m
        ∧ 0 ≤ getInterval m' ≤ UINT32_MAX
        ∧ (inject_Z (getInterval m') <= q)%Q
        ∧ (q < inject_Z (getInterval m' + 1))%Q
        ∧ ∀ k, (q == inject_Z k)%Q → getInterval m' = k.
Proof.
  intros Hv H0 Hmax.
  destruct (SF_trunc_floor _ _ Hv H0) as (n & Hn & Hn0 & Hle & Hlt).
  assert (n ≤ UINT32_MAX) as Hn1.
  { pose proof (Qle_lt_trans _ _ _ Hle Hmax) as H.
    unfold Qlt, inject_Z in H; simpl in H. lia. }
  exists (set_interval_ n m). unfold setCtrlFrequency, double_to_uint32.
  rewrite Hn. simpl. rewrite decide_True by done. simpl.
  repeat split; try done.
  intros k Hk. rewrite Hk in Hle, Hlt.
  unfold Qle, Qlt, inject_Z in *; simpl in *. lia.
Qed.

Lemma setCtrlFrequency_truncates_witness :
  ∃ m', setCtrlFrequency 1000 (EcMaster_new 0) = Some m'
        ∧ m' = set_interval_ (getInterval m') (EcMaster_new 0)
        ∧ 0 ≤ getInterval m' ≤ UINT32_MAX
        ∧ (inject_Z (getInterval m') <= 8589934592000000 # 8589934592)%Q
        ∧ (8589934592000000 # 8589934592 < inject_Z (getInterval m' + 1))%Q
        ∧ ∀ k, (8589934592000000 # 8589934592 == inject_Z k)%Q →
               getInterval m' = k.
Proof.
  apply (setCtrlFrequency_truncates 1000 (EcMaster_new 0)
           (8589934592000000 # 8589934592)).
  - vm_compute. reflexivity.
  - vm_compute. discriminate.
  - vm_compute. reflexivity.
Defined.

Example setCtrlFrequency_one_kilohertz :
  getInterval <$> setCtrlFrequency 1000 (EcMaster_new 0) = Some 1000000.
Proof. vm_compute. reflexivity. Qed.


(** * Further properties of the member functions *)

(** ** Queries and [processData()] *)

Section Members.

Implicit Types (this r : SDORequest) (w : world) (T : transport) (c : call).

Lemma live_state p T : live p T → is_Some (ecrt_sdo_request_state p T).
Proof. intros [x Hx]. unfold ecrt_sdo_request_state. rewrite Hx. by eexists. Qed.

Lemma live_data p T : live p T → is_Some (ecrt_sdo_request_data p T).
Proof. intros [x Hx]. unfold ecrt_sdo_request_data. rewrite Hx. by eexists. Qed.

Lemma query_changes_nothing c this w :
  is_query c = true → live (request_ this) (bus w) →
  invoke c this w = Some (tt, this, w).
Proof.
  intros Hq Hl. destruct (live_state _ _ Hl) as [st Hst].
  destruct (live_data _ _ Hl) as [data Hdata].
  destruct c; try done; simpl;
    unfold discard, isComplete, isUnsed, getData, getIndex, getSubindex;
    rewrite ?Hst, ?Hdata; reflexivity.
Qed.

Lemma getData_data this w data this' w' :
  getData this w = Some (data, this', w') →
  ecrt_sdo_request_data (request_ this) (bus w) = Some data
  ∧ live (request_ this) (bus w).
Proof.
  unfold getData, ecrt_sdo_request_data, live.
  destruct (lookup_request (request_ this) (bus w)) as [x|]; [|done]. simpl.
  intros [= <- _ _]. split; [done|by eexists].
Qed.

Lemma valid_slave_devices p w w' :
  devices w' = devices w → valid_slave p w' = valid_slave p w.
Proof. intros H. unfold valid_slave. by rewrite H. Qed.

End Members.

Section MemberProperties.

Implicit Types (this r : SDORequest) (w : world) (T : transport) (c : call).

Lemma calls_without_arming cs this w data :
  ecrt_sdo_request_data (request_ this) (bus w) = Some data →
  (2 ≤ length data)%nat →
  valid_slave (slave_ this) w = true →
  forallb (λ c, negb (is_initiateRead c)) cs = true →
  invoke_all cs this w =
    Some (tt, this,
          {| bus := bus w; devices := devices w;
             delivered := delivered w ++
               replicate (count_occ call_eq_dec cs CallProcessData)
                         (processSDO_of this data) |}).
Proof.
  intros Hdata Hlen. revert w Hdata.
  induction cs as [|c cs IH]; intros w Hdata Hv Hcs.
  - simpl. rewrite app_nil_r. by destruct w.
  - simpl in Hcs. apply andb_prop in Hcs as [Hc Hcs].
    assert (live (request_ this) (bus w)) as Hl.
    { unfold live. unfold ecrt_sdo_request_data in Hdata.
      destruct (lookup_request (request_ this) (bus w)); [by eexists|done]. }
    destruct (is_query c) eqn:Hq.
    + cbn [invoke_all]. rewrite (query_changes_nothing c this w Hq Hl).
      cbn -[count_occ]. rewrite count_occ_cons_neq by (by destruct c).
      exact (IH w Hdata Hv Hcs).
    + destruct c; try done. cbn [invoke_all invoke].
      rewrite (processData_step this w data Hdata Hlen Hv).
      cbn -[count_occ]. rewrite count_occ_cons_eq by done.
      etrans; [apply IH; [exact Hdata| |exact Hcs]|].
      * by rewrite (valid_slave_devices _ w).
      * cbn -[count_occ]. by rewrite <- app_assoc.
Qed.

(** X1. [isComplete()] and [isUnsed()] are never both true of a request:
    on a live request both are defined, [isComplete()] holds exactly in
    state Success, and both are false exactly while the request is Busy
    or has ended in Error. *)
Theorem complete_and_unused_exclusive this w :
  live (request_ this) (bus w) →
  ∃ complete unused : bool,
    isComplete this w = Some (complete, this, w)
    ∧ isUnsed this w = Some (unused, this, w)
    ∧ complete && unused = false
    ∧ (complete = true ↔
       ecrt_sdo_request_state (request_ this) (bus w) = Some EC_REQUEST_SUCCESS)
    ∧ (complete || unused = false ↔
       ecrt_sdo_request_state (request_ this) (bus w) = Some EC_REQUEST_BUSY
       ∨ ecrt_sdo_request_state (request_ this) (bus w) = Some EC_REQUEST_ERROR).
Proof.
  intros Hl. destruct (live_state _ _ Hl) as [st Hst].
  unfold isComplete, isUnsed. rewrite Hst. simpl.
  eexists _, _. split; [reflexivity|]. split; [reflexivity|].
  destruct st; simpl; (split; [reflexivity|]); split; split;
    try done; try (intros [?|?]; done); try (by left); by right.
Qed.

Lemma complete_and_unused_exclusive_witness :
  ∃ complete unused : bool,
    isComplete req_statusword world_armed = Some (complete, req_statusword, world_armed)
    ∧ isUnsed req_statusword world_armed = Some (unused, req_statusword, world_armed)
    ∧ complete && unused = false
    ∧ (complete = true ↔
       ecrt_sdo_request_state (request_ req_statusword) (bus world_armed)
         = Some EC_REQUEST_SUCCESS)
    ∧ (complete || unused = false ↔
       ecrt_sdo_request_state (request_ req_statusword) (bus world_armed)
         = Some EC_REQUEST_BUSY
       ∨ ecrt_sdo_request_state (request_ req_statusword) (bus world_armed)
         = Some EC_REQUEST_ERROR).
Proof.
  apply (complete_and_unused_exclusive req_statusword world_armed).
  vm_compute. by eexists.
Defined.





End MemberProperties.

Example processData_without_device_undefined :
  processData req_orphan world_uploaded = None
  ∧ invoke_all [CallIsComplete; CallProcessData] req_orphan world_uploaded = None.
Proof. vm_compute. split; reflexivity. Qed.

(** ** The two-byte reading *)

Lemma byte_val_inj (b c : byte) : byte_val b = byte_val c → b = c.
Proof.
  unfold byte_val. intros H%N2Z.inj.
  pose proof (Byte.of_to_N b) as Hb. rewrite H, Byte.of_to_N in Hb. congruence.
Qed.

Lemma byte_of_val (v : Z) : 0 ≤ v ≤ 255 → ∃ b, byte_val b = v.
Proof.
  intros Hv. destruct (Byte.of_N (Z.to_N v)) as [b|] eqn:Hb.
  - exists b. unfold byte_val. apply Byte.to_of_N in Hb. rewrite Hb. lia.
  - apply Byte.of_N_None_iff in Hb. lia.
Qed.

(** X5. The value [processData()] hands over determines the two bytes
    it read, and every [uint16_t] is the reading of some two bytes: on
    buffers of at least two bytes, equal values mean equal first two
    bytes, and each value from 0 to 65535 is delivered for some
    buffer. *)
Theorem two_byte_reading_bijective this :
  (∀ d1 d2,
     (2 ≤ length d1)%nat → (2 ≤ length d2)%nat →
     sdo_call_value (processSDO_of this d1) = sdo_call_value (processSDO_of this d2) →
     take 2 d1 = take 2 d2)
  ∧ (∀ v, 0 ≤ v ≤ UINT16_MAX →
          ∃ d, length d = 2%nat ∧ sdo_call_value (processSDO_of this d) = v).
Proof.
  split.
  - intros [|b0 [|b1 r1]] [|c0 [|c1 r2]]; simpl; try lia. intros _ _ Heq.
    pose proof (byte_val_range b0). pose proof (byte_val_range b1).
    pose proof (byte_val_range c0). pose proof (byte_val_range c1).
    assert (byte_val b0 = byte_val c0) as ->%byte_val_inj by lia.
    assert (byte_val b1 = byte_val c1) as ->%byte_val_inj by lia.
    reflexivity.
  - intros v Hv. unfold UINT16_MAX in Hv.
    destruct (byte_of_val (v mod 256)) as [b0 Hb0].
    { pose proof (Z.mod_pos_bound v 256). lia. }
    destruct (byte_of_val (v / 256)) as [b1 Hb1].
    { split; [apply Z.div_pos; lia|].
      assert (v / 256 < 256) by (apply Z.div_lt_upper_bound; lia). lia. }
    exists [b0; b1]. split; [done|]. simpl. rewrite Hb0, Hb1.
    pose proof (Z.div_mod v 256). lia.
Qed.

Lemma two_byte_reading_bijective_witness :
  take 2 [Byte.x2c; Byte.x01; Byte.xff] = take 2 [Byte.x2c; Byte.x01]
  ∧ ∃ d, length d = 2%nat ∧ sdo_call_value (processSDO_of req_statusword d) = 300.
Proof.
  split.
  - apply (proj1 (two_byte_reading_bijective req_statusword)
             [Byte.x2c; Byte.x01; Byte.xff] [Byte.x2c; Byte.x01]);
      [simpl; lia|simpl; lia|reflexivity].
  - apply (proj2 (two_byte_reading_bijective req_statusword) 300).
    unfold UINT16_MAX. lia.
Defined.

(** ** [setCtrlFrequency()] and [stop()] *)

Lemma SF_trunc_defined (x : spec_float) :
  SF_value x = None ↔ SF_trunc x = None.
Proof. destruct x; simpl; split; done. Qed.

(** The truncation of a finite [double] lies in [0, U] exactly when its
    value lies strictly between -1 and U + 1. *)
Lemma SF_trunc_in_range (x : spec_float) (q : Q) (U : Z) :
  0 ≤ U → SF_value x = Some q →
  ∃ n, SF_trunc x = Some n
       ∧ (0 ≤ n ≤ U ↔ (inject_Z (-1) < q)%Q ∧ (q < inject_Z (U + 1))%Q).
Proof.
  intros HU. destruct x as [s|s| |s mant e]; simpl; try done.
  - intros [= <-]. exists 0. split; [done|].
    unfold Qlt, inject_Z; simpl. lia.
  - intros [= <-].
    destruct (Z.leb_spec 0 e) as [He|He].
    + assert (0 < 2 ^ e) as Hpow by (by apply Z.pow_pos_nonneg).
      eexists. split; [reflexivity|].
      unfold Qlt, inject_Z; simpl. destruct s; nia.
    + assert (0 < 2 ^ (- e)) as HD by (apply Z.pow_pos_nonneg; lia).
      eexists. split; [reflexivity|].
      unfold Qlt, inject_Z; simpl. rewrite Z2Pos.id by done.
      pose proof (Z.mul_div_le (Z.pos mant) _ HD).
      pose proof (Z.mul_succ_div_gt (Z.pos mant) _ HD).
      pose proof (Z.div_pos (Z.pos mant) (2 ^ (- e))).
      destruct s; nia.
Qed.

(** X8. [setCtrlFrequency(frequency)] has defined behaviour exactly when
    the [double] quotient [1000000000.0 / frequency] is finite and lies
    strictly between -1 and 2^32 (so not for a zero or NaN frequency,
    nor for a positive one below about 0.233 Hz, nor for a negative one
    of magnitude up to 1e9 Hz);
    whenever it is defined, [getInterval()] afterwards is a
    [uint32_t]. *)
Theorem setCtrlFrequency_defined_iff (frequency : float) (m : EcMaster) :
  (is_Some (setCtrlFrequency frequency m)
   ↔ ∃ q, SF_value (Prim2SF (1000000000.0 / frequency)) = Some q
          ∧ (inject_Z (-1) < q)%Q ∧ (q < inject_Z (UINT32_MAX + 1))%Q)
  ∧ (∀ m', setCtrlFrequency frequency m = Some m' →
           0 ≤ getInterval m' ≤ UINT32_MAX).
Proof.
  unfold setCtrlFrequency, double_to_uint32.
  set (x := Prim2SF (1000000000.0 / frequency)).
  destruct (SF_value x) as [q|] eqn:Hq.
  - destruct (SF_trunc_in_range x q UINT32_MAX) as (n & Hn & Hiff);
      [unfold UINT32_MAX; lia|done|].
    rewrite Hn. simpl. destruct (decide (0 ≤ n ≤ UINT32_MAX)) as [Hr|Hr]; simpl.
    + split.
      * split; [|by eexists]. intros _. exists q. split; [done|]. by apply Hiff.
      * intros m' [= <-]. done.
    + split; [|done]. split; [by intros [? ?]|].
      intros (q' & [= <-] & Hq'). by apply Hiff in Hq'.
  - apply SF_trunc_defined in Hq. rewrite Hq. simpl.
    split; [|done]. split; [by intros [? ?]|]. by intros (q' & ? & _).
Qed.

Example setCtrlFrequency_zero_undefined :
  setCtrlFrequency 0 (EcMaster_new 0) = None
  ∧ setCtrlFrequency (-1) (EcMaster_new 0) = None
  ∧ setCtrlFrequency nan (EcMaster_new 0) = None
  ∧ getInterval <$> setCtrlFrequency infinity (EcMaster_new 0) = Some 0.
Proof. vm_compute. repeat split; reflexivity. Qed.

(** X9. [stop()] and [setCtrlFrequency()] write different members, so
    they can be called in either order; a second [stop()] changes
    nothing, and of two calls of [setCtrlFrequency()] the later one
    decides the period. *)
Theorem stop_and_setCtrlFrequency_compose (f g : float) (m : EcMaster) :
  setCtrlFrequency f (stop m) = stop <$> setCtrlFrequency f m
  ∧ stop (stop m) = stop m
  ∧ (is_Some (setCtrlFrequency f m) →
     setCtrlFrequency f m ≫= setCtrlFrequency g = setCtrlFrequency g m)
  ∧ (∀ m', setCtrlFrequency f m = Some m' → running_ m' = running_ m).
Proof.
  unfold setCtrlFrequency.
  destruct (double_to_uint32 (1000000000.0 / f)) as [i|]; simpl.
  - split; [done|]. split; [done|]. split.
    + intros _. by destruct (double_to_uint32 (1000000000.0 / g)).
    + by intros m' [= <-].
  - split; [done|]. split; [done|]. split; [by intros [? ?]|done].
Qed.

Lemma stop_and_setCtrlFrequency_compose_witness :
  setCtrlFrequency 1000 (EcMaster_new 0) ≫= setCtrlFrequency 250
  = setCtrlFrequency 250 (EcMaster_new 0).
Proof.
  apply (proj1 (proj2 (proj2 (stop_and_setCtrlFrequency_compose
                                1000 250 (EcMaster_new 0))))).
  vm_compute. by eexists.
Defined.

Example setCtrlFrequency_later_call_decides :
  getInterval <$> (setCtrlFrequency 1000 (EcMaster_new 0) ≫= setCtrlFrequency 250)
  = Some 4000000.
Proof. vm_compute. reflexivity. Qed.
